(** * kindr: Euler angles (Z-Y'-X'' / yaw-pitch-roll)

    A shallow embedding of
    [rotations/include/kindr/rotations/eigen/EulerAnglesZyx.hpp].

    Scalars are IEEE-754 binary floating-point numbers, taken from the
    standard library's [SpecFloat]: [float] is binary32, [double] is
    binary64.  The class template [EulerAnglesZyx<PrimType_, Usage_>] becomes
    a record indexed by the two template parameters; its member functions
    become functions on that record, mutators returning the updated object. *)

From Stdlib Require Import ZArith Bool Lia.
From Stdlib Require Import Floats.SpecFloat.

Local Open Scope Z_scope.

(** ** Template parameters *)

(** [enum RotationUsage]. *)
Inductive RotationUsage : Set := ACTIVE | PASSIVE.

(** [PrimType_]: "the primitive type of the data (double or float)". *)
Inductive PrimType : Set := Float | Double.

Definition prec (P : PrimType) : Z :=
  match P with Float => 24 | Double => 53 end.

Definition emax (P : PrimType) : Z :=
  match P with Float => 128 | Double => 1024 end.

Definition PrimType_eqb (P Q : PrimType) : bool :=
  match P, Q with
  | Float, Float | Double, Double => true
  | _, _ => false
  end.

(** ** Scalars *)

Definition Scalar : Set := spec_float.

(** Conversion of a scalar of type [S] to type [D] (an implicit C++
    conversion, or Eigen's [cast<D>()] on one coefficient).  Nothing happens
    between equal types; otherwise the value is rounded to the nearest value
    of the destination format. *)
Definition cast (S D : PrimType) (x : Scalar) : Scalar :=
  if PrimType_eqb S D then x
  else match x with
       | S754_finite s m e => binary_round (prec D) (emax D) s m e
       | _ => x
       end.

(** [double] arithmetic and comparisons. *)
Definition dadd : Scalar -> Scalar -> Scalar := SFadd (prec Double) (emax Double).
Definition dsub : Scalar -> Scalar -> Scalar := SFsub (prec Double) (emax Double).
Definition dmul : Scalar -> Scalar -> Scalar := SFmul (prec Double) (emax Double).
Definition ddiv : Scalar -> Scalar -> Scalar := SFdiv (prec Double) (emax Double).

(** [a >= b] and [a < b]; both are false when an operand is NaN. *)
Definition ge (a b : Scalar) : bool := SFleb b a.
Definition lt (a b : Scalar) : bool := SFltb a b.

(** An integer literal used as a [double]. *)
Definition of_Z (z : Z) : Scalar :=
  binary_normalize (prec Double) (emax Double) z 0 false.

(** [M_PI] of [<cmath>]: 3.14159265358979323846 as a double,
    that is 0x1921FB54442D18 * 2^-51. *)
Definition M_PI : Scalar := S754_finite false 7074237752028440 (-51).

(** ** Eigen::Matrix<PrimType_, 3, 1> *)

Module Eigen.

Record Vector3 : Set := mkVector3 { v0 : Scalar; v1 : Scalar; v2 : Scalar }.

(** [Base::Zero()]. *)
Definition Zero : Vector3 :=
  mkVector3 (S754_zero false) (S754_zero false) (S754_zero false).

(** Unary minus: the sign of every coefficient is flipped. *)
Definition neg (v : Vector3) : Vector3 :=
  mkVector3 (SFopp (v0 v)) (SFopp (v1 v)) (SFopp (v2 v)).

(** [v.template cast<D>()]. *)
Definition vcast (S D : PrimType) (v : Vector3) : Vector3 :=
  mkVector3 (cast S D (v0 v)) (cast S D (v1 v)) (cast S D (v2 v)).

(** [u == v]: all coefficients compare equal. *)
Definition eqb (u v : Vector3) : bool :=
  SFeqb (v0 u) (v0 v) && SFeqb (v1 u) (v1 v) && SFeqb (v2 u) (v2 v).

(** [v(0) = a], [v(1) = a], [v(2) = a]. *)
Definition set0 (v : Vector3) (a : Scalar) : Vector3 := mkVector3 a (v1 v) (v2 v).
Definition set1 (v : Vector3) (a : Scalar) : Vector3 := mkVector3 (v0 v) a (v2 v).
Definition set2 (v : Vector3) (a : Scalar) : Vector3 := mkVector3 (v0 v) (v1 v) a.

End Eigen.

Import Eigen.

(** ** class EulerAnglesZyx *)

(** The only data member is [Base zyx_], the "vector of Euler angles
    [yaw; pitch; roll]". *)
Record EulerAnglesZyx (P : PrimType) (U : RotationUsage) : Set :=
  mkEulerAnglesZyx { zyx_ : Vector3 }.

Arguments mkEulerAnglesZyx {P U} _.
Arguments zyx_ {P U} _.

Definition Base : Set := Vector3.
Definition Implementation : Set := Base.

Section Members.

Context {P : PrimType} {U : RotationUsage}.

Local Abbreviation T := (EulerAnglesZyx P U).

(** [EulerAnglesZyx()]. *)
Definition EulerAnglesZyx_default : T := mkEulerAnglesZyx Zero.

(** [EulerAnglesZyx(Scalar yaw, Scalar pitch, Scalar roll)]. *)
Definition EulerAnglesZyx_scalars (yaw pitch roll : Scalar) : T :=
  match U with
  | ACTIVE => mkEulerAnglesZyx (mkVector3 yaw pitch roll)
  | PASSIVE => mkEulerAnglesZyx (mkVector3 (SFopp yaw) (SFopp pitch) (SFopp roll))
  end.

(** [explicit EulerAnglesZyx(const Base& other)]. *)
Definition EulerAnglesZyx_base (other : Base) : T :=
  match U with
  | ACTIVE => mkEulerAnglesZyx other
  | PASSIVE => mkEulerAnglesZyx (neg other)
  end.

Definition toImplementation (this : T) : Implementation :=
  match U with
  | ACTIVE => zyx_ this
  | PASSIVE => neg (zyx_ this)
  end.

Definition toStoredImplementation (this : T) : Base := zyx_ this.

Definition yaw (this : T) : Scalar :=
  match U with
  | ACTIVE => v0 (zyx_ this)
  | PASSIVE => SFopp (v0 (zyx_ this))
  end.

Definition pitch (this : T) : Scalar :=
  match U with
  | ACTIVE => v1 (zyx_ this)
  | PASSIVE => SFopp (v1 (zyx_ this))
  end.

Definition roll (this : T) : Scalar :=
  match U with
  | ACTIVE => v2 (zyx_ this)
  | PASSIVE => SFopp (v2 (zyx_ this))
  end.

Definition setYaw (this : T) (yaw : Scalar) : T :=
  match U with
  | ACTIVE => mkEulerAnglesZyx (set0 (zyx_ this) yaw)
  | PASSIVE => mkEulerAnglesZyx (set0 (zyx_ this) (SFopp yaw))
  end.

Definition setPitch (this : T) (pitch : Scalar) : T :=
  match U with
  | ACTIVE => mkEulerAnglesZyx (set1 (zyx_ this) pitch)
  | PASSIVE => mkEulerAnglesZyx (set1 (zyx_ this) (SFopp pitch))
  end.

Definition setRoll (this : T) (roll : Scalar) : T :=
  match U with
  | ACTIVE => mkEulerAnglesZyx (set2 (zyx_ this) roll)
  | PASSIVE => mkEulerAnglesZyx (set2 (zyx_ this) (SFopp roll))
  end.

Definition z (this : T) : Scalar :=
  match U with
  | ACTIVE => v0 (zyx_ this)
  | PASSIVE => SFopp (v0 (zyx_ this))
  end.

Definition y (this : T) : Scalar :=
  match U with
  | ACTIVE => v1 (zyx_ this)
  | PASSIVE => SFopp (v1 (zyx_ this))
  end.

Definition x (this : T) : Scalar :=
  match U with
  | ACTIVE => v2 (zyx_ this)
  | PASSIVE => SFopp (v2 (zyx_ this))
  end.

Definition setZ (this : T) (z : Scalar) : T :=
  match U with
  | ACTIVE => mkEulerAnglesZyx (set0 (zyx_ this) z)
  | PASSIVE => mkEulerAnglesZyx (set0 (zyx_ this) (SFopp z))
  end.

Definition setY (this : T) (y : Scalar) : T :=
  match U with
  | ACTIVE => mkEulerAnglesZyx (set1 (zyx_ this) y)
  | PASSIVE => mkEulerAnglesZyx (set1 (zyx_ this) (SFopp y))
  end.

Definition setX (this : T) (x : Scalar) : T :=
  match U with
  | ACTIVE => mkEulerAnglesZyx (set2 (zyx_ this) x)
  | PASSIVE => mkEulerAnglesZyx (set2 (zyx_ this) (SFopp x))
  end.

(** [setIdentity()] has no embedding.  Its body is
    [this->Implementation::setZero()], where [Implementation] is the member
    typedef of [Eigen::Matrix<PrimType_, 3, 1>]: the class derives from
    [EulerAnglesZyxBase] only and keeps its angles in the member [zyx_], so
    the qualified call names no base of the object, is ill-formed wherever
    the member is instantiated, and contains no assignment to [zyx_].  The
    default constructor above is the member that stores [Base::Zero()]. *)

End Members.

(** ** kindr::common::floatingPointModulo *)

(** [floor] of [<cmath>] on a double: the largest integer not above [x];
    zeros, infinities and NaN are returned as they are. *)
Definition floor (x : Scalar) : Scalar :=
  match x with
  | S754_finite s m e =>
      if 0 <=? e then x
      else match Z.shiftr (cond_Zopp s (Zpos m)) (- e) with
           | Z0 => S754_zero s
           | q => of_Z q
           end
  | _ => x
  end.

(** Modelled from the spec: [floatingPointModulo] of
    [kindr/common/common.hpp], a file that is not part of the sources at
    hand.  The specification calls it "a floating-point modulo operation",
    [mod(x, y)], whose result for a positive [y] lies in [[0, y)]: the
    remainder [x - y * floor(x / y)], evaluated in [double]. *)
Definition floatingPointModulo (x y : Scalar) : Scalar :=
  dsub x (dmul y (floor (ddiv x y))).

(** ** Canonical angles *)

Section Unique.

Context {P : PrimType} {U : RotationUsage}.

Local Abbreviation T := (EulerAnglesZyx P U).

(** A [Scalar] operand of a [double] expression, and a [double] result
    passed where a [Scalar] is expected. *)
Definition promote (a : Scalar) : Scalar := cast P Double a.
Definition narrow (a : Scalar) : Scalar := cast Double P a.

(** [floatingPointModulo(a + M_PI, 2*M_PI) - M_PI]. *)
Definition wrap (a : Scalar) : Scalar :=
  dsub (floatingPointModulo (dadd (promote a) M_PI) (dmul (of_Z 2) M_PI)) M_PI.

(** The two branches shift yaw and roll by [M_PI] in the same way. *)
Definition shiftYaw (zyx : T) : T :=
  if ge (yaw zyx) (of_Z 0)
  then setYaw zyx (narrow (dsub (promote (yaw zyx)) M_PI))
  else setYaw zyx (narrow (dadd (promote (yaw zyx)) M_PI)).

Definition shiftRoll (zyx : T) : T :=
  if ge (roll zyx) (of_Z 0)
  then setRoll zyx (narrow (dsub (promote (roll zyx)) M_PI))
  else setRoll zyx (narrow (dadd (promote (roll zyx)) M_PI)).

Definition getUnique (this : T) : T :=
  let zyx : T :=
    EulerAnglesZyx_scalars (narrow (wrap (yaw this)))
                           (narrow (wrap (pitch this)))
                           (narrow (wrap (roll this))) in
  if ge (promote (pitch zyx)) (ddiv M_PI (of_Z 2)) then
    let zyx := shiftYaw zyx in
    let zyx := setPitch zyx (narrow (SFopp (dsub (promote (pitch zyx)) M_PI))) in
    shiftRoll zyx
  else if lt (promote (pitch zyx)) (ddiv (SFopp M_PI) (of_Z 2)) then
    let zyx := shiftYaw zyx in
    let zyx := setPitch zyx (narrow (SFopp (dadd (promote (pitch zyx)) M_PI))) in
    shiftRoll zyx
  else zyx.

(** [setUnique()]: [*this = getUnique()]. *)
Definition setUnique (this : T) : T := getUnique this.

End Unique.

(** ** ConversionTraits<EulerAnglesZyx<Dest>, EulerAnglesZyx<Source>> *)

Module ConversionTraits.

(** [convert]: the stored vector of the source, cast to the destination's
    primitive type, is handed to the constructor taking a [Base]. *)
Definition convert {S D : PrimType} {U : RotationUsage}
    (zyx : EulerAnglesZyx S U) : EulerAnglesZyx D U :=
  EulerAnglesZyx_base (vcast S D (toStoredImplementation zyx)).

End ConversionTraits.

(** [explicit EulerAnglesZyx(const RotationBase<OtherDerived_, Usage_>& other)],
    for another [EulerAnglesZyx]. *)
Definition EulerAnglesZyx_rotation {S D : PrimType} {U : RotationUsage}
    (other : EulerAnglesZyx S U) : EulerAnglesZyx D U :=
  mkEulerAnglesZyx (toStoredImplementation (ConversionTraits.convert (D := D) other)).

(** [operator=(const RotationBase<OtherDerived_, Usage_>& other)]. *)
Definition assign {S D : PrimType} {U : RotationUsage}
    (this : EulerAnglesZyx D U) (other : EulerAnglesZyx S U) : EulerAnglesZyx D U :=
  ConversionTraits.convert other.

(** ** inverted() *)

Section Inverse.

(** [getInverseRpy<PrimType_, PrimType_>] of
    [kindr/rotations/eigen/RotationEigenFunctions.hpp] is not among the
    sources; it is a parameter here. *)
Variable getInverseRpy : Base -> Base.

Context {P : PrimType} {U : RotationUsage}.

(** [inverted()], const and non-const: the result is
    [EulerAnglesZyx(getInverseRpy<PrimType_, PrimType_>(zyx_))]. *)
Definition inverted (this : EulerAnglesZyx P U) : EulerAnglesZyx P U :=
  EulerAnglesZyx_base (getInverseRpy (zyx_ this)).

End Inverse.

(** ** Values of a primitive type *)



(** The angle that [shiftYaw] and [shiftRoll] write for a yaw or roll [a]:
    [a - M_PI] if [a >= 0], [a + M_PI] otherwise. *)
Definition shifted {P : PrimType} (a : Scalar) : Scalar :=
  if ge a (of_Z 0)
  then narrow (P := P) (dsub (promote (P := P) a) M_PI)
  else narrow (P := P) (dadd (promote (P := P) a) M_PI).

(** ** Constants used in the statements *)

Definition zero : Scalar := of_Z 0.
Definition one : Scalar := of_Z 1.

(** [M_PI/2]. *)
Definition half_pi : Scalar := ddiv M_PI (of_Z 2).

(** [a == 0]. *)
Definition is_zero (a : Scalar) : bool := SFeqb a zero.

(** * Properties *)

(** ** Sign flips *)

Lemma SFopp_involutive (a : Scalar) : SFopp (SFopp a) = a.
Proof. destruct a as [s|s| |s m e]; simpl; try rewrite negb_involutive; reflexivity. Qed.

Lemma neg_involutive (v : Vector3) : neg (neg v) = v.
Proof. destruct v; unfold neg; simpl; now rewrite !SFopp_involutive. Qed.

Lemma SFopp_zero_is_zero (a : Scalar) : is_zero a = true -> is_zero (SFopp a) = true.
Proof. destruct a as [s|s| |s m e]; simpl; trivial; destruct s; discriminate. Qed.

Create Rewrite HintDb signs.
#[local] Hint Rewrite SFopp_involutive neg_involutive : signs.

Ltac by_usage U :=
  destruct U; cbn; unfold neg; cbn; autorewrite with signs; auto.

(** ** Constructors, accessors and [toImplementation] *)

(** What the three-scalar constructor stores. *)
Lemma stored_of_scalars (P : PrimType) (U : RotationUsage) (a b c : Scalar) :
  toStoredImplementation (EulerAnglesZyx_scalars (P := P) (U := U) a b c) =
  match U with
  | ACTIVE => mkVector3 a b c
  | PASSIVE => neg (mkVector3 a b c)
  end.
Proof. destruct U; reflexivity. Qed.

(** [toImplementation] of a value built from three scalars gives the three
    scalars back, whatever the usage. *)
Lemma toImplementation_of_scalars (P : PrimType) (U : RotationUsage) (a b c : Scalar) :
  toImplementation (EulerAnglesZyx_scalars (P := P) (U := U) a b c) = mkVector3 a b c.
Proof. by_usage U. Qed.

(** C7: [toImplementation()] returns the stored vector unchanged for an
    active rotation, and its element-wise negation for a passive one. *)
Theorem toImplementation_by_usage (P : PrimType) :
  (forall r : EulerAnglesZyx P ACTIVE,
      toImplementation r = toStoredImplementation r) /\
  (forall r : EulerAnglesZyx P PASSIVE,
      toImplementation r = neg (toStoredImplementation r)).
Proof. split; intros r; reflexivity. Qed.

(** C8: for both usages and every (yaw, pitch, roll), the value constructed
    from the three scalars returns yaw from [yaw()] and [z()], pitch from
    [pitch()] and [y()], roll from [roll()] and [x()]. *)
Theorem accessors_of_scalars (P : PrimType) (U : RotationUsage) (a b c : Scalar) :
  let r := EulerAnglesZyx_scalars (P := P) (U := U) a b c in
  yaw r = a /\ z r = a /\
  pitch r = b /\ y r = b /\
  roll r = c /\ x r = c.
Proof. by_usage U; repeat split. Qed.

(** C1, as the code has it: built from the same (yaw, pitch, roll), the
    passive and the active value have the same [toImplementation()], namely
    (yaw, pitch, roll); it is the stored vector of the passive value that is
    the negation of the stored vector of the active one, (yaw, pitch, roll)
    being stored for the active value and (-yaw, -pitch, -roll) for the
    passive one. *)
Theorem usage_sign_law (P : PrimType) (a b c : Scalar) :
  let act := EulerAnglesZyx_scalars (P := P) (U := ACTIVE) a b c in
  let pas := EulerAnglesZyx_scalars (P := P) (U := PASSIVE) a b c in
  toImplementation pas = toImplementation act /\
  toStoredImplementation pas = neg (toStoredImplementation act) /\
  toImplementation act = mkVector3 a b c /\
  toImplementation pas = mkVector3 a b c /\
  toStoredImplementation act = mkVector3 a b c /\
  toStoredImplementation pas = mkVector3 (SFopp a) (SFopp b) (SFopp c).
Proof.
  cbn zeta. rewrite !toImplementation_of_scalars, !stored_of_scalars.
  repeat split.
Qed.

(** C1, as stated, fails for yaw = 1, pitch = roll = 0 in double precision:
    [toImplementation()] of the passive value is (1, 0, 0), the negation of
    the active one's is (-1, -0, -0); they differ, also under [==]. *)
Lemma usage_sign_law_counterexample :
  ~ (toImplementation (EulerAnglesZyx_scalars (P := Double) (U := PASSIVE) one zero zero)
     = neg (toImplementation
              (EulerAnglesZyx_scalars (P := Double) (U := ACTIVE) one zero zero))) /\
  Eigen.eqb
    (toImplementation (EulerAnglesZyx_scalars (P := Double) (U := PASSIVE) one zero zero))
    (neg (toImplementation
            (EulerAnglesZyx_scalars (P := Double) (U := ACTIVE) one zero zero)))
  = false.
Proof. split; [ intros H; discriminate H | reflexivity ]. Qed.

(** ** Mutators *)

(** Every single-angle mutator stores its argument so that the matching
    accessor reads it back. *)
Lemma set_then_get (P : PrimType) (U : RotationUsage)
    (this : EulerAnglesZyx P U) (v : Scalar) :
  yaw (setYaw this v) = v /\ z (setZ this v) = v /\
  pitch (setPitch this v) = v /\ y (setY this v) = v /\
  roll (setRoll this v) = v /\ x (setX this v) = v.
Proof. by_usage U; repeat split. Qed.

(** C10: each single-angle mutator leaves the other two angles as they were:
    [setYaw]/[setZ] keep [pitch()] and [roll()], [setPitch]/[setY] keep
    [yaw()] and [roll()], [setRoll]/[setX] keep [yaw()] and [pitch()]. *)
Theorem mutators_frame (P : PrimType) (U : RotationUsage)
    (this : EulerAnglesZyx P U) (v : Scalar) :
  (pitch (setYaw this v) = pitch this /\ roll (setYaw this v) = roll this) /\
  (pitch (setZ this v) = pitch this /\ roll (setZ this v) = roll this) /\
  (yaw (setPitch this v) = yaw this /\ roll (setPitch this v) = roll this) /\
  (yaw (setY this v) = yaw this /\ roll (setY this v) = roll this) /\
  (yaw (setRoll this v) = yaw this /\ pitch (setRoll this v) = pitch this) /\
  (yaw (setX this v) = yaw this /\ pitch (setX this v) = pitch this).
Proof. destruct this as [[a b c]]; destruct U; cbn; repeat split. Qed.

(** The stored coefficients that a mutator does not name are untouched. *)
Lemma mutators_frame_stored (P : PrimType) (U : RotationUsage)
    (this : EulerAnglesZyx P U) (v : Scalar) :
  let s := toStoredImplementation in
  (v1 (s (setYaw this v)) = v1 (s this) /\ v2 (s (setYaw this v)) = v2 (s this)) /\
  (v0 (s (setPitch this v)) = v0 (s this) /\ v2 (s (setPitch this v)) = v2 (s this)) /\
  (v0 (s (setRoll this v)) = v0 (s this) /\ v1 (s (setRoll this v)) = v1 (s this)).
Proof. destruct this as [[a b c]]; destruct U; cbn; repeat split. Qed.

(** ** Identity *)

(** The default constructor stores the zero vector; an active value then
    reads +0 everywhere and a passive one -0, and all of them compare equal
    to 0. *)
Lemma default_is_zero (P : PrimType) (U : RotationUsage) :
  let s := match U with ACTIVE => false | PASSIVE => true end in
  let r : EulerAnglesZyx P U := EulerAnglesZyx_default in
  toStoredImplementation r = Zero /\
  (yaw r = S754_zero s /\ pitch r = S754_zero s /\ roll r = S754_zero s) /\
  (is_zero (yaw r) = true /\ is_zero (pitch r) = true /\ is_zero (roll r) = true) /\
  Eigen.eqb (toImplementation r) Zero = true.
Proof. destruct U; cbn; repeat split. Qed.

(** ** Conversion from another [EulerAnglesZyx] *)

Lemma cast_same (P : PrimType) (a : Scalar) : cast P P a = a.
Proof. destruct P; reflexivity. Qed.

Lemma vcast_same (P : PrimType) (v : Vector3) : vcast P P v = v.
Proof. destruct v; unfold vcast; cbn; now rewrite !cast_same. Qed.

(** The stored vector after [convert]: the cast source vector for an active
    rotation, its negation for a passive one, since the constructor taking a
    [Base] applies the sign of the usage to what it is given. *)
Lemma convert_stored (S D : PrimType) (U : RotationUsage) (r : EulerAnglesZyx S U) :
  toStoredImplementation (ConversionTraits.convert (D := D) r) =
  match U with
  | ACTIVE => vcast S D (toStoredImplementation r)
  | PASSIVE => neg (vcast S D (toStoredImplementation r))
  end.
Proof. destruct U; reflexivity. Qed.

(** Between equal precisions an active value is converted to itself. *)
Lemma convert_same_active (P : PrimType) (r : EulerAnglesZyx P ACTIVE) :
  ConversionTraits.convert (D := P) r = r /\
  EulerAnglesZyx_rotation (D := P) r = r.
Proof.
  destruct r as [v]. unfold EulerAnglesZyx_rotation, ConversionTraits.convert.
  cbn. now rewrite vcast_same.
Qed.

(** Between equal precisions a passive value is converted to the value with
    all three stored angles negated, so that its accessors change sign. *)
Lemma convert_same_passive (P : PrimType) (r : EulerAnglesZyx P PASSIVE) :
  let c : EulerAnglesZyx P PASSIVE := ConversionTraits.convert r in
  toStoredImplementation c = neg (toStoredImplementation r) /\
  yaw c = SFopp (yaw r) /\ pitch c = SFopp (pitch r) /\ roll c = SFopp (roll r).
Proof.
  destruct r as [[a b c]].
  unfold ConversionTraits.convert, EulerAnglesZyx_base, vcast, neg. cbn.
  rewrite !cast_same. repeat split.
Qed.

(** C4 at the passive double-precision value built from yaw = 1,
    pitch = roll = 0, whose stored vector is (-1, -0, -0): [convert], the
    adapter constructor and the assignment all produce the stored vector
    (1, 0, 0), which differs from the source's, also under [==], and [yaw()]
    changes from 1 to -1. *)
Theorem convert_passive_negates_stored :
  let r := EulerAnglesZyx_scalars (P := Double) (U := PASSIVE) one zero zero in
  let c : EulerAnglesZyx Double PASSIVE := ConversionTraits.convert r in
  let k : EulerAnglesZyx Double PASSIVE := EulerAnglesZyx_rotation r in
  let a : EulerAnglesZyx Double PASSIVE := assign EulerAnglesZyx_default r in
  toStoredImplementation r = mkVector3 (SFopp one) (SFopp zero) (SFopp zero) /\
  toStoredImplementation c = mkVector3 one zero zero /\
  k = c /\ a = c /\
  toStoredImplementation c <> toStoredImplementation r /\
  Eigen.eqb (toStoredImplementation c) (toStoredImplementation r) = false /\
  yaw r = one /\ yaw c = SFopp one.
Proof.
  cbn zeta. repeat split; try reflexivity. intros H; discriminate H.
Qed.

(** ** Canonical angles *)

(** [2*M_PI] and [M_PI/2] are M_PI with the exponent moved by one. *)
Example two_pi_value : dmul (of_Z 2) M_PI = S754_finite false 7074237752028440 (-50).
Proof. reflexivity. Qed.

Example half_pi_value : half_pi = S754_finite false 7074237752028440 (-52).
Proof. reflexivity. Qed.

(** The modulo leaves a value of [[0, 2*M_PI)] as it is; these are the
    three values it is applied to in the evaluations below. *)
Example floatingPointModulo_inside :
  let two_pi := dmul (of_Z 2) M_PI in
  floatingPointModulo zero two_pi = zero /\
  floatingPointModulo M_PI two_pi = M_PI /\
  floatingPointModulo (dadd half_pi M_PI) two_pi = dadd half_pi M_PI.
Proof. vm_compute. repeat split. Qed.

(** It brings values from outside into the interval. *)
Example floatingPointModulo_outside :
  let two_pi := dmul (of_Z 2) M_PI in
  floatingPointModulo (SFopp half_pi) two_pi = dadd half_pi M_PI /\
  floatingPointModulo (dadd two_pi M_PI) two_pi = M_PI.
Proof. vm_compute. repeat split. Qed.

(** Angles already inside the ranges are kept. *)
Example getUnique_inside :
  getUnique (EulerAnglesZyx_scalars (P := Double) (U := ACTIVE) one one (SFopp one))
  = EulerAnglesZyx_scalars one one (SFopp one).
Proof. vm_compute. reflexivity. Qed.

(** A pitch of exactly -M_PI/2 is kept: neither branch is taken. *)
Example getUnique_minus_half_pi :
  let r := getUnique (EulerAnglesZyx_scalars (P := Double) (U := ACTIVE)
                        zero (SFopp half_pi) zero) in
  (yaw r, pitch r, roll r) = (zero, SFopp half_pi, zero).
Proof. vm_compute. reflexivity. Qed.

(** yaw = 0, pitch = M_PI, roll = 0: the pitch wraps to -M_PI, which is
    below -M_PI/2, and the second branch gives (-M_PI, -0, -M_PI). *)
Example getUnique_pitch_pi :
  let r := getUnique (EulerAnglesZyx_scalars (P := Double) (U := ACTIVE)
                        zero M_PI zero) in
  (yaw r, pitch r, roll r) = (SFopp M_PI, S754_zero true, SFopp M_PI).
Proof. vm_compute. reflexivity. Qed.

(** C2 at yaw = 0, pitch = M_PI/2, roll = 0 in double precision, for both
    usages: the wrapped pitch is exactly M_PI/2, the first branch is taken
    and sets the pitch to -(M_PI/2 - M_PI), which is M_PI/2 again; the
    returned pitch is not below M_PI/2. *)
Theorem getUnique_pitch_half_pi (U : RotationUsage) :
  let r := getUnique (EulerAnglesZyx_scalars (P := Double) (U := U)
                        zero half_pi zero) in
  (yaw r, pitch r, roll r) = (SFopp M_PI, half_pi, SFopp M_PI) /\
  lt (pitch r) half_pi = false.
Proof. destruct U; vm_compute; split; reflexivity. Qed.

(** C3 at the same value v: [getUnique(v)] has the angles
    (-M_PI, M_PI/2, -M_PI), and [getUnique] applied to it gives
    (0, M_PI/2, 0); the two differ, also under [==]. *)
Theorem getUnique_twice_half_pi (U : RotationUsage) :
  let v := EulerAnglesZyx_scalars (P := Double) (U := U) zero half_pi zero in
  let u := getUnique v in
  let w := getUnique u in
  (yaw u, pitch u, roll u) = (SFopp M_PI, half_pi, SFopp M_PI) /\
  (yaw w, pitch w, roll w) = (zero, half_pi, zero) /\
  w <> u /\
  Eigen.eqb (toImplementation w) (toImplementation u) = false.
Proof.
  destruct U; vm_compute; repeat split; try reflexivity; intros H; discriminate H.
Qed.

(** * Further properties *)

(** ** Constructors and accessors *)

Lemma yaw_scalars (P : PrimType) (U : RotationUsage) (a b c : Scalar) :
  yaw (EulerAnglesZyx_scalars (P := P) (U := U) a b c) = a.
Proof. by_usage U. Qed.

Lemma pitch_scalars (P : PrimType) (U : RotationUsage) (a b c : Scalar) :
  pitch (EulerAnglesZyx_scalars (P := P) (U := U) a b c) = b.
Proof. by_usage U. Qed.

Lemma roll_scalars (P : PrimType) (U : RotationUsage) (a b c : Scalar) :
  roll (EulerAnglesZyx_scalars (P := P) (U := U) a b c) = c.
Proof. by_usage U. Qed.

(** X1: the constructor taking a vector and [toImplementation()] are inverse
    to each other for both usages, and the accessors of the constructed
    value read the vector in the order yaw, pitch, roll. *)
Theorem base_toImplementation_roundtrip (P : PrimType) (U : RotationUsage)
    (v : Base) (r : EulerAnglesZyx P U) :
  toImplementation (EulerAnglesZyx_base (P := P) (U := U) v) = v /\
  EulerAnglesZyx_base (toImplementation r) = r /\
  yaw (EulerAnglesZyx_base (P := P) (U := U) v) = v0 v /\
  pitch (EulerAnglesZyx_base (P := P) (U := U) v) = v1 v /\
  roll (EulerAnglesZyx_base (P := P) (U := U) v) = v2 v.
Proof.
  destruct r as [[a b c]], v as [a' b' c'].
  by_usage U; repeat split.
Qed.

(** X2: a value is determined by its three angles: building a value from
    [yaw()], [pitch()] and [roll()] of [r] gives [r] back, and two values
    with equal angles are equal. *)
Theorem scalars_of_accessors (P : PrimType) (U : RotationUsage)
    (r r' : EulerAnglesZyx P U) :
  EulerAnglesZyx_scalars (yaw r) (pitch r) (roll r) = r /\
  (yaw r = yaw r' -> pitch r = pitch r' -> roll r = roll r' -> r = r').
Proof.
  assert (E : forall q : EulerAnglesZyx P U,
             EulerAnglesZyx_scalars (yaw q) (pitch q) (roll q) = q).
  { intros [[a b c]]. by_usage U. }
  split; [ apply E | ].
  intros Hy Hp Hr. rewrite <- (E r), <- (E r'), Hy, Hp, Hr. reflexivity.
Qed.

Lemma scalars_of_accessors_witness :
  let r := EulerAnglesZyx_scalars (P := Double) (U := PASSIVE) one zero half_pi in
  let r' := setRoll (setPitch (setYaw r zero) zero) half_pi in
  let r'' := setYaw r' one in
  r = r''.
Proof.
  cbn zeta.
  apply (scalars_of_accessors Double PASSIVE); reflexivity.
Defined.

(** X3: [z()], [y()], [x()] are [yaw()], [pitch()], [roll()], and [setZ],
    [setY], [setX] are [setYaw], [setPitch], [setRoll]. *)
Theorem axis_aliases (P : PrimType) (U : RotationUsage)
    (r : EulerAnglesZyx P U) (v : Scalar) :
  z r = yaw r /\ y r = pitch r /\ x r = roll r /\
  setZ r v = setYaw r v /\ setY r v = setPitch r v /\ setX r v = setRoll r v.
Proof. destruct U; repeat split. Qed.

(** ** Mutators *)

Lemma setYaw_scalars (P : PrimType) (U : RotationUsage) (a b c v : Scalar) :
  setYaw (EulerAnglesZyx_scalars (P := P) (U := U) a b c) v
  = EulerAnglesZyx_scalars v b c.
Proof. destruct U; reflexivity. Qed.

Lemma setPitch_scalars (P : PrimType) (U : RotationUsage) (a b c v : Scalar) :
  setPitch (EulerAnglesZyx_scalars (P := P) (U := U) a b c) v
  = EulerAnglesZyx_scalars a v c.
Proof. destruct U; reflexivity. Qed.

Lemma setRoll_scalars (P : PrimType) (U : RotationUsage) (a b c v : Scalar) :
  setRoll (EulerAnglesZyx_scalars (P := P) (U := U) a b c) v
  = EulerAnglesZyx_scalars a b v.
Proof. destruct U; reflexivity. Qed.

(** X4: setting the three angles of any value, in any of the orders below,
    gives the value constructed from the three scalars; nothing of the
    previous state is left. *)
Theorem set_all_is_construct (P : PrimType) (U : RotationUsage)
    (r : EulerAnglesZyx P U) (a b c : Scalar) :
  setRoll (setPitch (setYaw r a) b) c = EulerAnglesZyx_scalars a b c /\
  setYaw (setPitch (setRoll r c) b) a = EulerAnglesZyx_scalars a b c /\
  setPitch (setYaw (setRoll r c) a) b = EulerAnglesZyx_scalars a b c.
Proof. destruct r as [[a' b' c']]; destruct U; repeat split. Qed.

(** X5: mutators of different angles commute, a second write to the same
    angle replaces the first, and writing back the angle just read changes
    nothing. *)
Theorem mutators_compose (P : PrimType) (U : RotationUsage)
    (r : EulerAnglesZyx P U) (u v : Scalar) :
  (setPitch (setYaw r u) v = setYaw (setPitch r v) u /\
   setRoll (setYaw r u) v = setYaw (setRoll r v) u /\
   setRoll (setPitch r u) v = setPitch (setRoll r v) u) /\
  (setYaw (setYaw r u) v = setYaw r v /\
   setPitch (setPitch r u) v = setPitch r v /\
   setRoll (setRoll r u) v = setRoll r v) /\
  (setYaw r (yaw r) = r /\ setPitch r (pitch r) = r /\ setRoll r (roll r) = r).
Proof.
  destruct r as [[a b c]].
  destruct U; cbn; unfold set0, set1, set2; cbn;
    autorewrite with signs; repeat split.
Qed.

(** X6: a mutator stores its argument so that the matching accessor reads
    it back, for both usages: the sign applied on writing is undone on
    reading. *)
Theorem set_get_roundtrip (P : PrimType) (U : RotationUsage)
    (r : EulerAnglesZyx P U) (v : Scalar) :
  yaw (setYaw r v) = v /\ z (setZ r v) = v /\
  pitch (setPitch r v) = v /\ y (setY r v) = v /\
  roll (setRoll r v) = v /\ x (setX r v) = v.
Proof. by_usage U; repeat split. Qed.

(** ** Rounding between [float] and [double] *)

Lemma binary_round_opp prec emax s m e :
  binary_round prec emax (negb s) m e = SFopp (binary_round prec emax s m e).
Proof.
  unfold binary_round. destruct (shl_align _ _ _) as [mz ez].
  unfold binary_round_aux.
  destruct (shr_fexp prec emax (Z.pos mz) ez loc_Exact) as [mrs' e'].
  destruct (shr_fexp prec emax _ e' loc_Exact) as [mrs'' e''].
  destruct (shr_m mrs''); try reflexivity.
  destruct (e'' <=? emax - prec); reflexivity.
Qed.




Section Round.

Variables prec emax : Z.

End Round.


Lemma cast_opp (S D : PrimType) (a : Scalar) :
  cast S D (SFopp a) = SFopp (cast S D a).
Proof.
  unfold cast. destruct (PrimType_eqb S D); [ reflexivity | ].
  destruct a as [s|s| |s m e]; try reflexivity.
  cbn [SFopp]. apply binary_round_opp.
Qed.




(** ** Conversion between precisions *)

(** X7: the adapter constructor and the assignment give what [convert]
    gives, and the angles of the converted value are the cast angles of the
    source for an active rotation and the negated cast angles for a passive
    one, whatever the two precisions. *)
Theorem convert_accessors (S D : PrimType) (U : RotationUsage)
    (r : EulerAnglesZyx S U) (this : EulerAnglesZyx D U) :
  let c : EulerAnglesZyx D U := ConversionTraits.convert r in
  let sgn := match U with ACTIVE => fun a => a | PASSIVE => SFopp end in
  EulerAnglesZyx_rotation r = c /\ assign this r = c /\
  yaw c = sgn (cast S D (yaw r)) /\
  pitch c = sgn (cast S D (pitch r)) /\
  roll c = sgn (cast S D (roll r)).
Proof.
  destruct r as [[a b c]]. cbv zeta.
  unfold EulerAnglesZyx_rotation, assign, ConversionTraits.convert,
    EulerAnglesZyx_base, toStoredImplementation, yaw, pitch, roll, vcast, neg.
  destruct U; cbn [zyx_ v0 v1 v2]; rewrite ?cast_opp; repeat split.
Qed.

(** X8: between equal precisions, converting an active value gives the same
    value; converting a passive value gives a different stored vector, the
    negated one, and converting twice gives the original back. *)
Theorem convert_same_precision (P : PrimType)
    (a : EulerAnglesZyx P ACTIVE) (p : EulerAnglesZyx P PASSIVE) :
  ConversionTraits.convert (D := P) a = a /\
  ConversionTraits.convert (D := P) p = mkEulerAnglesZyx (neg (zyx_ p)) /\
  ConversionTraits.convert (D := P) (ConversionTraits.convert (D := P) p) = p.
Proof.
  destruct a as [va], p as [vp].
  unfold ConversionTraits.convert, EulerAnglesZyx_base, toStoredImplementation.
  cbn [zyx_]. rewrite !vcast_same, neg_involutive. repeat split.
Qed.



(** ** inverted() *)

(** X10: for both usages, [toImplementation()] and the accessors of
    [inverted()] are what [getInverseRpy] returns for the stored vector; for
    a passive rotation the vector stored in the result is the negation of
    that. *)
Theorem inverted_reads_getInverseRpy (getInverseRpy : Base -> Base)
    (P : PrimType) (U : RotationUsage) (r : EulerAnglesZyx P U) :
  let i := inverted getInverseRpy r in
  let g := getInverseRpy (toStoredImplementation r) in
  toImplementation i = g /\
  yaw i = v0 g /\ pitch i = v1 g /\ roll i = v2 g /\
  toStoredImplementation i = match U with ACTIVE => g | PASSIVE => neg g end.
Proof.
  cbv zeta. unfold inverted, toStoredImplementation.
  destruct (getInverseRpy (zyx_ r)) as [a b c].
  by_usage U; repeat split.
Qed.

(** ** Canonical angles, continued *)

Lemma shiftYaw_scalars (P : PrimType) (U : RotationUsage) (a b c : Scalar) :
  shiftYaw (EulerAnglesZyx_scalars (P := P) (U := U) a b c)
  = EulerAnglesZyx_scalars (shifted (P := P) a) b c.
Proof.
  unfold shiftYaw, shifted. rewrite yaw_scalars.
  destruct (ge a (of_Z 0)); apply setYaw_scalars.
Qed.

Lemma shiftRoll_scalars (P : PrimType) (U : RotationUsage) (a b c : Scalar) :
  shiftRoll (EulerAnglesZyx_scalars (P := P) (U := U) a b c)
  = EulerAnglesZyx_scalars a b (shifted (P := P) c).
Proof.
  unfold shiftRoll, shifted. rewrite roll_scalars.
  destruct (ge c (of_Z 0)); apply setRoll_scalars.
Qed.

(** [getUnique] in terms of the three angles alone. *)
Lemma getUnique_scalars (P : PrimType) (U : RotationUsage) (a b c : Scalar) :
  getUnique (EulerAnglesZyx_scalars (P := P) (U := U) a b c) =
  let y0 := narrow (P := P) (wrap (P := P) a) in
  let p0 := narrow (P := P) (wrap (P := P) b) in
  let r0 := narrow (P := P) (wrap (P := P) c) in
  if ge (promote (P := P) p0) (ddiv M_PI (of_Z 2)) then
    EulerAnglesZyx_scalars (shifted (P := P) y0)
      (narrow (P := P) (SFopp (dsub (promote (P := P) p0) M_PI)))
      (shifted (P := P) r0)
  else if lt (promote (P := P) p0) (ddiv (SFopp M_PI) (of_Z 2)) then
    EulerAnglesZyx_scalars (shifted (P := P) y0)
      (narrow (P := P) (SFopp (dadd (promote (P := P) p0) M_PI)))
      (shifted (P := P) r0)
  else EulerAnglesZyx_scalars y0 p0 r0.
Proof.
  unfold getUnique. cbv zeta.
  rewrite yaw_scalars, !pitch_scalars, roll_scalars.
  set (y0 := narrow (wrap a)). set (p0 := narrow (wrap b)). set (r0 := narrow (wrap c)).
  destruct (ge (promote p0) (ddiv M_PI (of_Z 2))).
  - now rewrite shiftYaw_scalars, !pitch_scalars, setPitch_scalars, shiftRoll_scalars.
  - destruct (lt (promote p0) (ddiv (SFopp M_PI) (of_Z 2))); [ | reflexivity ].
    now rewrite shiftYaw_scalars, !pitch_scalars, setPitch_scalars, shiftRoll_scalars.
Qed.

(** X11: [getUnique] works on the angles the accessors return, so it does
    the same for both usages: built from the same (yaw, pitch, roll), the
    passive and the active value have canonical forms with the same angles
    and the same [toImplementation()], and negated stored vectors. *)
Theorem getUnique_usage_independent (P : PrimType) (a b c : Scalar) :
  let ga := getUnique (EulerAnglesZyx_scalars (P := P) (U := ACTIVE) a b c) in
  let gp := getUnique (EulerAnglesZyx_scalars (P := P) (U := PASSIVE) a b c) in
  yaw gp = yaw ga /\ pitch gp = pitch ga /\ roll gp = roll ga /\
  toImplementation gp = toImplementation ga /\
  toStoredImplementation gp = neg (toStoredImplementation ga).
Proof.
  cbv zeta. rewrite !getUnique_scalars. cbv zeta.
  destruct (ge _ _); [ | destruct (lt _ _) ];
    rewrite !yaw_scalars, !pitch_scalars, !roll_scalars,
      !toImplementation_of_scalars, !stored_of_scalars;
    repeat split.
Qed.

Lemma wrap_nonfinite (P : PrimType) (s : bool) :
  narrow (P := P) (wrap (P := P) S754_nan) = S754_nan /\
  narrow (P := P) (wrap (P := P) (S754_infinity s)) = S754_nan.
Proof. destruct P, s; split; reflexivity. Qed.

Lemma shifted_nan (P : PrimType) : shifted (P := P) S754_nan = S754_nan.
Proof. destruct P; reflexivity. Qed.

Lemma getUnique_yaw_of_nan (P : PrimType) (U : RotationUsage) (a b c : Scalar) :
  narrow (P := P) (wrap (P := P) a) = S754_nan ->
  yaw (getUnique (EulerAnglesZyx_scalars (P := P) (U := U) a b c)) = S754_nan.
Proof.
  intros H. rewrite getUnique_scalars. cbv zeta. rewrite H.
  destruct (ge _ _); [ | destruct (lt _ _) ];
    rewrite yaw_scalars, ?shifted_nan; reflexivity.
Qed.

Lemma getUnique_roll_of_nan (P : PrimType) (U : RotationUsage) (a b c : Scalar) :
  narrow (P := P) (wrap (P := P) c) = S754_nan ->
  roll (getUnique (EulerAnglesZyx_scalars (P := P) (U := U) a b c)) = S754_nan.
Proof.
  intros H. rewrite getUnique_scalars. cbv zeta. rewrite H.
  destruct (ge _ _); [ | destruct (lt _ _) ];
    rewrite roll_scalars, ?shifted_nan; reflexivity.
Qed.

Lemma getUnique_pitch_of_nan (P : PrimType) (U : RotationUsage) (a b c : Scalar) :
  narrow (P := P) (wrap (P := P) b) = S754_nan ->
  getUnique (EulerAnglesZyx_scalars (P := P) (U := U) a b c)
  = EulerAnglesZyx_scalars (narrow (P := P) (wrap (P := P) a)) S754_nan
      (narrow (P := P) (wrap (P := P) c)).
Proof.
  intros H. rewrite getUnique_scalars. cbv zeta. rewrite H.
  replace (ge (promote (P := P) S754_nan) (ddiv M_PI (of_Z 2))) with false
    by (destruct P; reflexivity).
  replace (lt (promote (P := P) S754_nan) (ddiv (SFopp M_PI) (of_Z 2))) with false
    by (destruct P; reflexivity).
  reflexivity.
Qed.

(** X12: [getUnique] does not reject angles that are not finite: a yaw,
    pitch or roll that is NaN or infinite comes out as NaN.  With such a
    pitch neither remapping branch is taken and yaw and roll are only
    wrapped. *)
Theorem getUnique_nonfinite (P : PrimType) (U : RotationUsage)
    (a b c : Scalar) (s : bool) :
  let G := fun a b c =>
    getUnique (EulerAnglesZyx_scalars (P := P) (U := U) a b c) in
  let W := fun a => narrow (P := P) (wrap (P := P) a) in
  (yaw (G S754_nan b c) = S754_nan /\ yaw (G (S754_infinity s) b c) = S754_nan) /\
  (roll (G a b S754_nan) = S754_nan /\ roll (G a b (S754_infinity s)) = S754_nan) /\
  (G a S754_nan c = EulerAnglesZyx_scalars (W a) S754_nan (W c) /\
   G a (S754_infinity s) c = EulerAnglesZyx_scalars (W a) S754_nan (W c)).
Proof.
  cbv zeta. destruct (wrap_nonfinite P s) as [Hn Hi].
  repeat split;
    first [ now apply getUnique_yaw_of_nan
          | now apply getUnique_roll_of_nan
          | now apply getUnique_pitch_of_nan ].
Qed.

(** X13: in double precision, for every yaw and roll: a pitch of exactly
    [M_PI/2] takes the first branch and comes out as [M_PI/2], with the
    wrapped yaw and roll shifted by [M_PI]; a pitch of exactly [-M_PI/2]
    takes no branch and comes out as [-M_PI/2], with yaw and roll only
    wrapped. *)
Theorem getUnique_boundary_pitch (U : RotationUsage) (a c : Scalar) :
  getUnique (EulerAnglesZyx_scalars (P := Double) (U := U) a half_pi c)
  = EulerAnglesZyx_scalars (shifted (P := Double) (wrap (P := Double) a)) half_pi
      (shifted (P := Double) (wrap (P := Double) c)) /\
  getUnique (EulerAnglesZyx_scalars (P := Double) (U := U) a (SFopp half_pi) c)
  = EulerAnglesZyx_scalars (wrap (P := Double) a) (SFopp half_pi)
      (wrap (P := Double) c).
Proof.
  rewrite !getUnique_scalars. cbv zeta.
  assert (Hp : narrow (P := Double) (wrap (P := Double) half_pi) = half_pi)
    by reflexivity.
  assert (Hm : narrow (P := Double) (wrap (P := Double) (SFopp half_pi))
               = SFopp half_pi) by reflexivity.
  rewrite Hp, Hm.
  assert (H1 : ge (promote (P := Double) half_pi) (ddiv M_PI (of_Z 2)) = true)
    by reflexivity.
  assert (H2 : ge (promote (P := Double) (SFopp half_pi)) (ddiv M_PI (of_Z 2)) = false)
    by reflexivity.
  assert (H3 : lt (promote (P := Double) (SFopp half_pi)) (ddiv (SFopp M_PI) (of_Z 2))
               = false) by reflexivity.
  rewrite H1, H2, H3. split; reflexivity.
Qed.
